(** * GigCalendar: the authentication and roster store

    A shallow embedding of [src/store/authStore.ts].  The zustand store is a
    record [AuthState]; every action of the store is a computation in a small
    monad [Async] that threads the store together with the trace of the
    effects the action performs on its environment (HTTP requests, console
    output, the removal of a local-storage key, a navigation) and that either
    fulfils with a value or rejects with a thrown value, as a JavaScript
    promise does.  What the server answers to a request is an argument of the
    action that issues the request.  The store is wrapped in zustand's
    [persist] middleware, so the state also holds the content of
    [localStorage], which that middleware writes after every update. *)

From Stdlib Require Import String Ascii List NArith Bool Lia.
From stdpp Require Import base list strings gmap.

Local Open Scope string_scope.
Local Open Scope list_scope.

(** ** Data model *)

(** Modelled from the spec: the [User] type of [../types], a record with the
    properties [id], [name], [email], [password] and [role].  The store keeps
    users without a [password] property in slots of type [User] (the session
    user, the result of [getUsers]), so that property is optional. *)
Record User := mkUser {
  id : string;
  name : string;
  email : string;
  password : option string;
  role : string
}.

(** Modelled from the spec: the [LoginCredentials] type of [../types]. *)
Record LoginCredentials := mkCredentials {
  cred_email : string;
  cred_password : string
}.

(** The data fields of [AuthState]. *)
Record AuthState := mkAuthState {
  user : option User;
  isAuthenticated : bool;
  error : option string;
  users : list User
}.

(** The data fields the store is created with. *)
Definition initial : AuthState :=
  {| user := None; isAuthenticated := false; error := None; users := [] |}.

(** What [partialize] hands to the persist middleware. *)
Record Persisted := mkPersisted {
  persisted_user : option User;
  persisted_isAuthenticated : bool
}.

Definition partialize (state : AuthState) : Persisted :=
  {| persisted_user := user state;
     persisted_isAuthenticated := isAuthenticated state |}.

(** The argument of [addMember].  Its declared type is
    [Omit<User, 'role'> & {role: 'member'}]; the role is kept as the string
    the caller passes, which is what the function gets at run time. *)
Record NewMember := mkNewMember {
  nm_id : string;
  nm_name : string;
  nm_email : string;
  nm_password : option string;
  nm_role : string
}.

(** The JSON object of a request body, as [JSON.stringify] writes it: a
    property that is missing or [undefined] in the object is left out. *)
Record Payload := mkPayload {
  body_id : string;
  body_name : option string;
  body_email : option string;
  body_password : option string;
  body_role : string
}.

(** [JSON.stringify(member)] *)
Definition member_object (m : NewMember) : Payload :=
  {| body_id := nm_id m; body_name := Some (nm_name m);
     body_email := Some (nm_email m); body_password := nm_password m;
     body_role := nm_role m |}.

(** A property of the argument of [updateMember], whose type is
    [Partial<Omit<User, 'id' | 'role'>>]: not there, there with the value
    [undefined], or there with a string. *)
Inductive Update :=
| Absent
| Undefined
| Given (value : string).

Record Updates := mkUpdates {
  upd_name : Update;
  upd_email : Update;
  upd_password : Update
}.

(** One property of [{ ...user, ...updates }]: a property of [updates] that
    is there overrides the stored one, also when it is [undefined]. *)
Definition override (stored : option string) (u : Update) : option string :=
  match u with
  | Absent => stored
  | Undefined => None
  | Given value => Some value
  end.

(** [JSON.stringify({ ...user, ...updates })] *)
Definition spread (u : User) (updates : Updates) : Payload :=
  {| body_id := id u;
     body_name := override (Some (name u)) (upd_name updates);
     body_email := override (Some (email u)) (upd_email updates);
     body_password := override (password u) (upd_password updates);
     body_role := role u |}.

(** [const { password: _, ...userWithoutPassword } = user] *)
Definition withoutPassword (u : User) : User :=
  {| id := id u; name := name u; email := email u;
     password := None; role := role u |}.

(** ** Thrown values, promises and HTTP responses *)

(** What a [throw] or a rejected promise carries: an [Error] object with its
    message, or some value that is not an instance of [Error]. *)
Inductive Thrown :=
| ErrorObject (message : string)
| OtherValue.

Inductive Settled (A : Type) :=
| Fulfilled (a : A)
| Rejected (e : Thrown).
Arguments Fulfilled {A} a.
Arguments Rejected {A} e.

(** A response of the Fetch API: its status and what [response.json()]
    settles to. *)
Record Response (B : Type) := mkResponse {
  status : N;
  json : Settled B
}.
Arguments mkResponse {B} status json.
Arguments status {B} r.
Arguments json {B} r.

(** [response.ok]: the status is in the range 200-299. *)
Definition ok {B} (response : Response B) : bool :=
  (200 <=? status response)%N && (status response <=? 299)%N.

(** The JSON body that answers a DELETE: [null], or an object that may carry
    an [error] property. *)
Module Body.
Record t := make { error : option string }.
End Body.

Record Request := mkRequest {
  url : string;
  method : string;
  headers : list (string * string);
  body : option Payload
}.

Inductive Effect :=
| Fetch (request : Request)
| ConsoleLog (label : string)
| ConsoleError (label : string) (e : Thrown)
| RemoveItem (key : string)
| Navigate (href : string).

(** ** The monad of the store's actions *)

(** What a key of [localStorage] holds: the slice that the persist
    middleware wrote, or some other text. *)
Inductive Stored :=
| Slice (p : Persisted)
| Text (raw : string).

Record World := mkWorld {
  store : AuthState;
  trace : list Effect;
  localStorage : gmap string Stored
}.

(** The [name] option of the persist middleware. *)
Definition storage_name : string := "auth-storage".

(** What the persist middleware does after an update of the state: it
    writes [partialize] of the new state under its [name]. *)
Definition persist (s : AuthState) (ls : gmap string Stored)
  : gmap string Stored :=
  <[storage_name := Slice (partialize s)]> ls.

Definition Async (A : Type) : Type := World -> Settled A * World.

Definition ret {A} (a : A) : Async A := fun w => (Fulfilled a, w).

Definition bind {A B} (m : Async A) (k : A -> Async B) : Async B :=
  fun w =>
    match m w with
    | (Fulfilled a, w') => k a w'
    | (Rejected e, w') => (Rejected e, w')
    end.

Definition throw {A} (e : Thrown) : Async A := fun w => (Rejected e, w).

Definition try_catch {A} (m : Async A) (handler : Thrown -> Async A) : Async A :=
  fun w =>
    match m w with
    | (Fulfilled a, w') => (Fulfilled a, w')
    | (Rejected e, w') => handler e w'
    end.

Definition await {A} (p : Settled A) : Async A := fun w => (p, w).

Definition emit (e : Effect) : Async unit :=
  fun w =>
    (Fulfilled tt,
     {| store := store w; trace := trace w ++ [e];
        localStorage := localStorage w |}).

(** [localStorage.removeItem(key)] *)
Definition removeItem (key : string) : Async unit :=
  fun w =>
    (Fulfilled tt,
     {| store := store w; trace := trace w ++ [RemoveItem key];
        localStorage := delete key (localStorage w) |}).

#[global] Instance Async_ret : MRet Async := @ret.
#[global] Instance Async_bind : MBind Async := fun A B k m => bind m k.

(** The object handed to [set]: the fields it mentions are overwritten, the
    others are kept. *)
Record Patch := mkPatch {
  p_user : option (option User);
  p_isAuthenticated : option bool;
  p_error : option (option string);
  p_users : option (list User)
}.

Definition merge (s : AuthState) (p : Patch) : AuthState :=
  {| user := default (user s) (p_user p);
     isAuthenticated := default (isAuthenticated s) (p_isAuthenticated p);
     error := default (error s) (p_error p);
     users := default (users s) (p_users p) |}.

Definition get : Async AuthState := fun w => (Fulfilled (store w), w).

(** The [set] that the persist middleware hands to the creator of the
    store: zustand's [set], followed by the write of the persisted slice. *)
Definition set_with (f : AuthState -> Patch) : Async unit :=
  fun w =>
    let s := merge (store w) (f (store w)) in
    (Fulfilled tt,
     {| store := s; trace := trace w;
        localStorage := persist s (localStorage w) |}).

Definition set (p : Patch) : Async unit := set_with (fun _ => p).

Definition only_users (us : list User) : Patch :=
  {| p_user := None; p_isAuthenticated := None; p_error := None; p_users := Some us |}.

Definition only_error (e : option string) : Patch :=
  {| p_user := None; p_isAuthenticated := None; p_error := Some e; p_users := None |}.

(** [fetch(url, init)]: the request goes out, then the promise settles. *)
Definition fetch {B} (request : Request) (outcome : Settled (Response B))
  : Async (Response B) :=
  emit (Fetch request) ;; await outcome.

Definition jsonHeaders : list (string * string) :=
  [("Content-Type", "application/json")].

(** ** Strings *)

(** [a || b] on strings: the empty string and [undefined] are falsy. *)
Definition or_else (a : option string) (b : string) : string :=
  match a with
  | Some "" | None => b
  | Some s => s
  end.

Definition lower_ascii (c : ascii) : ascii :=
  let n := N_of_ascii c in
  if (65 <=? n)%N && (n <=? 90)%N then ascii_of_N (n + 32) else c.

(** [String.prototype.toLowerCase] on strings of ASCII characters. *)
Fixpoint asciiToLowerCase (s : string) : string :=
  match s with
  | EmptyString => EmptyString
  | String c rest => String (lower_ascii c) (asciiToLowerCase rest)
  end.

(** ** Sample data

    A roster of three, a new member and a few answers of the server, for the
    concrete runs at the end of the file. *)

Module Scenario.

Definition ann : User :=
  {| id := "1"; name := "Ann"; email := "a@x.com";
     password := Some "p1"; role := "member" |}.

Definition bob : User :=
  {| id := "2"; name := "Bob"; email := "b@x.com";
     password := Some "p2"; role := "member" |}.

Definition cy : User :=
  {| id := "3"; name := "Cy"; email := "c@x.com";
     password := Some "p3"; role := "admin" |}.

Definition fresh : World :=
  {| store := initial; trace := []; localStorage := ∅ |}.

Definition with_roster (us : list User) : World :=
  {| store := {| user := None; isAuthenticated := false;
                 error := None; users := us |};
     trace := []; localStorage := ∅ |}.

Definition answer {B} (code : N) (b : B) : Settled (Response B) :=
  Fulfilled {| status := code; json := Fulfilled b |}.

Definition dee : NewMember :=
  {| nm_id := "4"; nm_name := "Dee"; nm_email := "d@x.com";
     nm_password := Some "p4"; nm_role := "member" |}.

End Scenario.

(** ** Unfolding the monad *)

Ltac unfold_async :=
  unfold try_catch, fetch, set, set_with, get, throw, await, emit, removeItem,
    mbind, mret, Async_bind, Async_ret, bind, ret in *.

Ltac run_async := unfold_async; cbn [fst snd store trace localStorage] in *.

(** ** The store *)

Section Store.

(** [import.meta.env.VITE_API_URL] *)
Variable VITE_API_URL : option string.

(** [String.prototype.toLowerCase] *)
Variable toLowerCase : string -> string.

Definition API_URL : string := or_else VITE_API_URL "http://localhost:3000/api".

(** The listener of the [dataUpdate] event of the socket. *)
Definition dataUpdate (type : string) (data : list User) : Async unit :=
  if String.eqb type "members" then set (only_users data) else ret tt.

Definition setUsers (us : list User) : Async unit := set (only_users us).

Definition fetchUsers (outcome : Settled (Response (list User))) : Async unit :=
  try_catch
    (response ← fetch (mkRequest (API_URL +:+ "/members") "GET" [] None) outcome;
     if negb (ok response) then throw (ErrorObject "Failed to fetch users")
     else
       us ← await (json response);
       set (only_users us))
    (fun e =>
       emit (ConsoleError "Failed to fetch users:" e) ;;
       set (only_error (Some "Failed to fetch users"))).

Definition matches (credentials : LoginCredentials) (u : User) : bool :=
  String.eqb (toLowerCase (email u)) (toLowerCase (cred_email credentials))
  && bool_decide (password u = Some (cred_password credentials)).

Definition login (credentials : LoginCredentials)
    (outcome : Settled (Response (list User))) : Async bool :=
  try_catch
    (fetchUsers outcome ;;
     s ← get;
     match List.find (matches credentials) (users s) with
     | Some u =>
         set {| p_user := Some (Some (withoutPassword u));
                p_isAuthenticated := Some true;
                p_error := Some None;
                p_users := None |} ;;
         ret true
     | None =>
         set (only_error (Some "Invalid email or password")) ;;
         ret false
     end)
    (fun e =>
       emit (ConsoleError "Login failed:" e) ;;
       set (only_error (Some "Login failed. Please try again.")) ;;
       ret false).

Definition logout : Async unit :=
  removeItem "auth-storage" ;;
  set {| p_user := Some None; p_isAuthenticated := Some false;
         p_error := Some None; p_users := Some [] |} ;;
  emit (Navigate "/").

Definition clearError : Async unit := set (only_error None).

Definition getUsers : Async (list User) :=
  s ← get; ret (map withoutPassword (users s)).

Definition addMember (member : NewMember)
    (posted : Settled (Response unit))
    (refreshed : Settled (Response (list User))) : Async unit :=
  try_catch
    (response ← fetch (mkRequest (API_URL +:+ "/members") "POST" jsonHeaders
                          (Some (member_object member))) posted;
     if negb (ok response) then throw (ErrorObject "Failed to add member")
     else fetchUsers refreshed)
    (fun e =>
       emit (ConsoleError "Failed to add member:" e) ;;
       set (only_error (Some "Failed to add member"))).

Definition updateMember (target : string) (updates : Updates)
    (put : Settled (Response unit))
    (refreshed : Settled (Response (list User))) : Async unit :=
  try_catch
    (s ← get;
     match List.find (fun u => String.eqb (id u) target) (users s) with
     | None => throw (ErrorObject "User not found")
     | Some u =>
         let updatedMember := spread u updates in
         response ← fetch (mkRequest (API_URL +:+ "/members/" +:+ target) "PUT"
                              jsonHeaders (Some updatedMember)) put;
         if negb (ok response) then throw (ErrorObject "Failed to update member")
         else fetchUsers refreshed
     end)
    (fun e =>
       emit (ConsoleError "Failed to update member:" e) ;;
       set (only_error (Some "Failed to update member"))).

(** [response.json().catch(() => null)] *)
Definition json_or_null (response : Response (option Body.t)) : option Body.t :=
  match json response with
  | Fulfilled data => data
  | Rejected _ => None
  end.

(** [data?.error] *)
Definition error_of (data : option Body.t) : option string :=
  match data with
  | Some d => Body.error d
  | None => None
  end.

(** [error instanceof Error ? error.message : 'Failed to remove member'] *)
Definition message_of (e : Thrown) : string :=
  match e with
  | ErrorObject m => m
  | OtherValue => "Failed to remove member"
  end.

Definition removeMember (target : string)
    (outcome : Settled (Response (option Body.t))) : Async unit :=
  try_catch
    (emit (ConsoleLog "Attempting to remove member:") ;;
     response ← fetch (mkRequest (API_URL +:+ "/members/" +:+ target) "DELETE"
                          jsonHeaders None) outcome;
     emit (ConsoleLog "Delete response status:") ;;
     let data := json_or_null response in
     emit (ConsoleLog "Delete response data:") ;;
     if negb (ok response)
     then throw (ErrorObject (or_else (error_of data) "Failed to remove member"))
     else
       set_with (fun state =>
         {| p_user := None; p_isAuthenticated := None;
            p_error := Some None;
            p_users := Some (List.filter
                               (fun u => negb (String.eqb (id u) target))
                               (users state)) |}))
    (fun e =>
       emit (ConsoleError "Failed to remove member:" e) ;;
       set (only_error (Some (message_of e))) ;;
       throw e).


(** [response.ok] is false: the status is outside 200-299. *)
Definition non_2xx {B} (r : Response B) : Prop :=
  (status r < 200 \/ 299 < status r)%N.

(** A request failed: the promise of [fetch] rejected (a network error), or
    the response has a status outside 200-299. *)
Inductive request_failed {B} : Settled (Response B) -> Prop :=
| rejected_request e : request_failed (Rejected e)
| refused_request r : non_2xx r -> request_failed (Fulfilled r).

(** [fetchUsers] failed: its request failed, or the body of the response
    could not be read as JSON. *)
Inductive fetch_failed : Settled (Response (list User)) -> Prop :=
| failed_request outcome : request_failed outcome -> fetch_failed outcome
| failed_parse r e : json r = Rejected e -> fetch_failed (Fulfilled r).

(** ** The store as a transition system *)

(** The calls of the store's actions, each with what the server answers to
    the requests it issues, and the push updates of the socket.  An event is
    one step: a call runs to its end on the store it finds.  Every action
    but [updateMember] touches the store only once its last request has
    settled, and [updateMember] reads it before its request only to build
    the body of that request. *)
Inductive Event :=
| CallSetUsers (us : list User)
| CallFetchUsers (outcome : Settled (Response (list User)))
| CallLogin (credentials : LoginCredentials)
    (outcome : Settled (Response (list User)))
| CallLogout
| CallClearError
| CallGetUsers
| CallAddMember (member : NewMember) (posted : Settled (Response unit))
    (refreshed : Settled (Response (list User)))
| CallUpdateMember (target : string) (updates : Updates)
    (put : Settled (Response unit))
    (refreshed : Settled (Response (list User)))
| CallRemoveMember (target : string)
    (outcome : Settled (Response (option Body.t)))
| PushUpdate (type : string) (data : list User).

Definition run (ev : Event) (w : World) : World :=
  match ev with
  | CallSetUsers us => (setUsers us w).2
  | CallFetchUsers outcome => (fetchUsers outcome w).2
  | CallLogin credentials outcome => (login credentials outcome w).2
  | CallLogout => (logout w).2
  | CallClearError => (clearError w).2
  | CallGetUsers => (getUsers w).2
  | CallAddMember member posted refreshed =>
      (addMember member posted refreshed w).2
  | CallUpdateMember target updates put refreshed =>
      (updateMember target updates put refreshed w).2
  | CallRemoveMember target outcome => (removeMember target outcome w).2
  | PushUpdate type data => (dataUpdate type data w).2
  end.

(** The event is a call of [login] that returns [true]. *)
Definition login_succeeds (ev : Event) (w : World) : Prop :=
  match ev with
  | CallLogin credentials outcome =>
      (login credentials outcome w).1 = Fulfilled true
  | _ => False
  end.

(** The call rejects: its failure reaches the caller. *)
Definition rejects (ev : Event) (w : World) : Prop :=
  match ev with
  | CallSetUsers us => exists e, (setUsers us w).1 = Rejected e
  | CallFetchUsers outcome => exists e, (fetchUsers outcome w).1 = Rejected e
  | CallLogin credentials outcome =>
      exists e, (login credentials outcome w).1 = Rejected e
  | CallLogout => exists e, (logout w).1 = Rejected e
  | CallClearError => exists e, (clearError w).1 = Rejected e
  | CallGetUsers => exists e, (getUsers w).1 = Rejected e
  | CallAddMember member posted refreshed =>
      exists e, (addMember member posted refreshed w).1 = Rejected e
  | CallUpdateMember target updates put refreshed =>
      exists e, (updateMember target updates put refreshed w).1 = Rejected e
  | CallRemoveMember target outcome =>
      exists e, (removeMember target outcome w).1 = Rejected e
  | PushUpdate type data => exists e, (dataUpdate type data w).1 = Rejected e
  end.

Inductive reachable : World -> Prop :=
| reachable_initial :
    reachable {| store := initial; trace := []; localStorage := ∅ |}
| reachable_run ev w : reachable w -> reachable (run ev w).

Definition anonymous (s : AuthState) : Prop :=
  isAuthenticated s = false /\ user s = None.

Definition authenticated (s : AuthState) : Prop :=
  isAuthenticated s = true /\ exists u, user s = Some u.

(** ** The requests of a trace *)

Definition request_of (e : Effect) : option Request :=
  match e with
  | Fetch request => Some request
  | _ => None
  end.

(** The requests of a trace, in the order they went out. *)
Definition requests (tr : list Effect) : list Request := omap request_of tr.

(** The URL is the members collection of the API or one of its members. *)
Definition members_url (u : string) : Prop :=
  u = API_URL +:+ "/members" \/ exists i, u = API_URL +:+ "/members/" +:+ i.

(** The event touches the store without any await. *)
Definition synchronous (ev : Event) : bool :=
  match ev with
  | CallSetUsers _ | CallLogout | CallClearError | CallGetUsers
  | PushUpdate _ _ => true
  | _ => false
  end.

(** ** Auxiliary facts *)

Lemma ok_true {B} (r : Response B) :
  ok r = true <-> (200 <= status r <= 299)%N.
Proof. unfold ok. rewrite andb_true_iff, !N.leb_le. reflexivity. Qed.

Lemma ok_false {B} (r : Response B) : ok r = false <-> non_2xx r.
Proof.
  unfold ok, non_2xx. rewrite andb_false_iff, !N.leb_gt. reflexivity.
Qed.

Lemma fetchUsers_fulfils outcome w :
  (fetchUsers outcome w).1 = Fulfilled tt.
Proof.
  unfold fetchUsers. run_async.
  destruct outcome as [r|e]; cbn; [|reflexivity].
  destruct (ok r); cbn; [|reflexivity].
  destruct (json r); reflexivity.
Qed.

Lemma fetchUsers_failure outcome w :
  fetch_failed outcome ->
  store (fetchUsers outcome w).2 =
    merge (store w) (only_error (Some "Failed to fetch users")).
Proof.
  intros H. unfold fetchUsers. run_async.
  destruct H as [_ [e|r Hr]|r e Hr]; cbn.
  - reflexivity.
  - apply ok_false in Hr. rewrite Hr. reflexivity.
  - destruct (ok r); cbn; [rewrite Hr|]; reflexivity.
Qed.

Lemma fetchUsers_success r us w :
  ok r = true -> json r = Fulfilled us ->
  store (fetchUsers (Fulfilled r) w).2 = merge (store w) (only_users us).
Proof.
  intros Hok Hjs. unfold fetchUsers. run_async. cbn.
  rewrite Hok. cbn. rewrite Hjs. reflexivity.
Qed.

Lemma fetch_failed_or_success outcome :
  fetch_failed outcome \/
  exists r us, outcome = Fulfilled r /\ ok r = true /\ json r = Fulfilled us.
Proof.
  destruct outcome as [r|e]; [|left; do 2 constructor].
  destruct (ok r) eqn:Hok.
  - destruct (json r) as [us|e] eqn:Hjs; [right; eauto|].
    left. eapply failed_parse. eassumption.
  - left. do 2 constructor. now apply ok_false.
Qed.

(** [fetchUsers] writes [users] or [error], never the session fields. *)
Lemma fetchUsers_session outcome w :
  user (store (fetchUsers outcome w).2) = user (store w) /\
  isAuthenticated (store (fetchUsers outcome w).2) = isAuthenticated (store w).
Proof.
  destruct (fetch_failed_or_success outcome) as [H|(r & b & -> & Hok & Hjs)].
  - rewrite (fetchUsers_failure _ _ H). split; reflexivity.
  - rewrite (fetchUsers_success _ _ _ Hok Hjs). split; reflexivity.
Qed.

Lemma matches_true credentials u :
  matches credentials u = true <->
  toLowerCase (email u) = toLowerCase (cred_email credentials) /\
  password u = Some (cred_password credentials).
Proof.
  unfold matches.
  rewrite andb_true_iff, String.eqb_eq, bool_decide_eq_true. reflexivity.
Qed.

(** [Array.prototype.find] returns the first element that satisfies the
    predicate, so it finds one as soon as the array holds one. *)
Lemma find_first {A} (f : A -> bool) (l : list A) (x : A) :
  In x l -> f x = true ->
  exists y pre post,
    List.find f l = Some y /\ f y = true /\
    l = pre ++ y :: post /\ (forall z, In z pre -> f z = false).
Proof.
  induction l as [|a l IH]; intros Hin Hfx; [destruct Hin|].
  cbn. destruct (f a) eqn:Hfa.
  - exists a, [], l. repeat split; auto. intros z [].
  - destruct Hin as [->|Hin]; [congruence|].
    destruct (IH Hin Hfx) as (y & pre & post & Hfind & Hfy & -> & Hpre).
    exists y, (a :: pre), post. repeat split; auto.
    intros z [<-|Hz]; auto.
Qed.

(** What [login] does once [fetchUsers] has refreshed the roster. *)
Lemma login_run credentials outcome w :
  let w1 := (fetchUsers outcome w).2 in
  login credentials outcome w =
    match List.find (matches credentials) (users (store w1)) with
    | Some u =>
        let s := {| user := Some (withoutPassword u);
                    isAuthenticated := true;
                    error := None;
                    users := users (store w1) |} in
        (Fulfilled true,
         {| store := s; trace := trace w1;
            localStorage := persist s (localStorage w1) |})
    | None =>
        let s := {| user := user (store w1);
                    isAuthenticated := isAuthenticated (store w1);
                    error := Some "Invalid email or password";
                    users := users (store w1) |} in
        (Fulfilled false,
         {| store := s; trace := trace w1;
            localStorage := persist s (localStorage w1) |})
    end.
Proof.
  intros w1. subst w1. unfold login.
  pose proof (fetchUsers_fulfils outcome w) as Hf.
  unfold try_catch at 1. unfold mbind at 1. unfold Async_bind, bind at 1.
  destruct (fetchUsers outcome w) as [res w1]. cbn in Hf. subst res.
  cbn [snd]. run_async.
  destruct (List.find (matches credentials) (users (store w1))); reflexivity.
Qed.

Lemma fetchUsers_trace outcome w :
  exists rest, trace (fetchUsers outcome w).2 = trace w ++ rest.
Proof.
  unfold fetchUsers. run_async.
  destruct outcome as [r|e]; cbn.
  - destruct (ok r); cbn; [destruct (json r); cbn|];
      rewrite <- ?app_assoc; eauto.
  - rewrite <- app_assoc. eauto.
Qed.

Lemma requests_app (tr more : list Effect) :
  requests (tr ++ more) = requests tr ++ requests more.
Proof. apply omap_app. Qed.

(** [fetchUsers] sends its GET, and nothing else, whatever the answer. *)
Lemma fetchUsers_requests outcome w :
  requests (trace (fetchUsers outcome w).2) =
    requests (trace w) ++ [mkRequest (API_URL +:+ "/members") "GET" [] None].
Proof.
  unfold fetchUsers. run_async.
  destruct outcome as [r|e]; cbn.
  - destruct (ok r); cbn; [destruct (json r); cbn|];
      rewrite ?requests_app; cbn; rewrite ?app_nil_r; reflexivity.
  - rewrite !requests_app. cbn. now rewrite app_nil_r.
Qed.

(** What [addMember] does, by the answer to its POST. *)
Lemma addMember_run member posted refreshed w :
  let sent :=
    {| store := store w;
       trace := trace w ++
         [Fetch (mkRequest (API_URL +:+ "/members") "POST" jsonHeaders
                   (Some (member_object member)))];
       localStorage := localStorage w |} in
  let failure (e : Thrown) :=
    let s := merge (store w) (only_error (Some "Failed to add member")) in
    (Fulfilled tt,
     {| store := s;
        trace := trace sent ++ [ConsoleError "Failed to add member:" e];
        localStorage := persist s (localStorage w) |}) in
  addMember member posted refreshed w =
    match posted with
    | Fulfilled r =>
        if ok r then (Fulfilled tt, (fetchUsers refreshed sent).2)
        else failure (ErrorObject "Failed to add member")
    | Rejected e => failure e
    end.
Proof.
  intros sent failure. unfold addMember.
  destruct posted as [r|e]; [|reflexivity].
  destruct (ok r) eqn:Hok.
  - pose proof (fetchUsers_fulfils refreshed sent) as Hf.
    run_async. cbn. rewrite Hok. cbn. fold sent.
    destruct (fetchUsers refreshed sent) as [res w1]. cbn in *. now subst res.
  - run_async. cbn. rewrite Hok. reflexivity.
Qed.

(** What [updateMember] does, by the lookup and the answer to its PUT. *)
Lemma updateMember_run target updates put refreshed w :
  let failure (tr : list Effect) (e : Thrown) :=
    let s := merge (store w) (only_error (Some "Failed to update member")) in
    (Fulfilled tt,
     {| store := s;
        trace := tr ++ [ConsoleError "Failed to update member:" e];
        localStorage := persist s (localStorage w) |}) in
  updateMember target updates put refreshed w =
    match List.find (fun u => String.eqb (id u) target) (users (store w)) with
    | None => failure (trace w) (ErrorObject "User not found")
    | Some u =>
        let sent :=
          {| store := store w;
             trace := trace w ++
               [Fetch (mkRequest (API_URL +:+ "/members/" +:+ target) "PUT"
                         jsonHeaders (Some (spread u updates)))];
             localStorage := localStorage w |} in
        match put with
        | Fulfilled r =>
            if ok r then (Fulfilled tt, (fetchUsers refreshed sent).2)
            else failure (trace sent) (ErrorObject "Failed to update member")
        | Rejected e => failure (trace sent) e
        end
    end.
Proof.
  intros failure. unfold updateMember. run_async.
  destruct (List.find _ (users (store w))) as [u|]; [|reflexivity].
  cbn. destruct put as [r|e]; [|reflexivity].
  destruct (ok r) eqn:Hok; cbn; [|reflexivity].
  match goal with |- context [fetchUsers refreshed ?x] =>
    pose proof (fetchUsers_fulfils refreshed x) as Hf;
    destruct (fetchUsers refreshed x) as [res w1] end.
  cbn in *. now subst res.
Qed.

(** What [removeMember] does, by the answer to its DELETE. *)
Lemma removeMember_run target outcome w :
  let request :=
    mkRequest (API_URL +:+ "/members/" +:+ target) "DELETE" jsonHeaders None in
  let failure (tr : list Effect) (e : Thrown) :=
    let s := merge (store w) (only_error (Some (message_of e))) in
    (Rejected e,
     {| store := s;
        trace := tr ++ [ConsoleError "Failed to remove member:" e];
        localStorage := persist s (localStorage w) |}) in
  removeMember target outcome w =
    match outcome with
    | Fulfilled r =>
        let tr := trace w ++
          [ConsoleLog "Attempting to remove member:"; Fetch request;
           ConsoleLog "Delete response status:";
           ConsoleLog "Delete response data:"] in
        if ok r then
          let s :=
            {| user := user (store w);
               isAuthenticated := isAuthenticated (store w);
               error := None;
               users := List.filter
                          (fun u => negb (String.eqb (id u) target))
                          (users (store w)) |} in
          (Fulfilled tt,
           {| store := s; trace := tr;
              localStorage := persist s (localStorage w) |})
        else
          failure tr
            (ErrorObject
               (or_else (error_of (json_or_null r)) "Failed to remove member"))
    | Rejected e =>
        failure
          (trace w ++ [ConsoleLog "Attempting to remove member:"; Fetch request])
          e
    end.
Proof.
  intros request failure. subst failure. unfold removeMember. run_async.
  destruct outcome as [r|e]; cbn.
  - destruct (ok r); cbn; rewrite <- ?app_assoc; reflexivity.
  - rewrite <- ?app_assoc. reflexivity.
Qed.

(** Every event is a successful login, a logout, or leaves the session
    fields as they are. *)
Lemma run_session ev w :
  login_succeeds ev w \/ ev = CallLogout \/
  (user (store (run ev w)) = user (store w) /\
   isAuthenticated (store (run ev w)) = isAuthenticated (store w)).
Proof.
  destruct ev as [us|o|c o| | | |m po re|t up pu re|t o|ty da]; cbn [run login_succeeds].
  - right; right. split; reflexivity.
  - right; right. apply fetchUsers_session.
  - rewrite login_run. cbn zeta.
    destruct (List.find _ _); [left; reflexivity|].
    right; right. cbn. apply fetchUsers_session.
  - right; left; reflexivity.
  - right; right. split; reflexivity.
  - right; right. split; reflexivity.
  - right; right. rewrite addMember_run. cbn zeta.
    destruct po as [r|e]; [destruct (ok r)|]; cbn; auto.
    match goal with |- context [fetchUsers re ?x] =>
      apply (fetchUsers_session re x) end.
  - right; right. rewrite updateMember_run. cbn zeta.
    destruct (List.find _ _); [|cbn; auto].
    destruct pu as [r|e]; [destruct (ok r)|]; cbn; auto.
    match goal with |- context [fetchUsers re ?x] =>
      apply (fetchUsers_session re x) end.
  - right; right. rewrite removeMember_run. cbn zeta.
    destruct o as [r|e]; [destruct (ok r)|]; cbn; auto.
  - right; right. unfold dataUpdate.
    destruct (String.eqb ty "members"); split; reflexivity.
Qed.

(** A successful login leaves the session authenticated. *)
Lemma login_succeeds_authenticated ev w :
  login_succeeds ev w -> authenticated (store (run ev w)).
Proof.
  destruct ev; cbn [login_succeeds run]; try contradiction.
  rewrite login_run. cbn zeta.
  destruct (List.find _ _); cbn; [|discriminate].
  intros _. split; cbn; eauto.
Qed.

(** The session is always in one of its two states. *)
Lemma reachable_session w :
  reachable w -> anonymous (store w) \/ authenticated (store w).
Proof.
  induction 1 as [|ev w Hw IH].
  - left. split; reflexivity.
  - destruct (run_session ev w) as [Hlogin|[->|[Hu Ha]]].
    + right. now apply login_succeeds_authenticated.
    + left. split; reflexivity.
    + unfold anonymous, authenticated in *. rewrite Hu, Ha. exact IH.
Qed.

(** ** fetchUsers *)

(** C7: when [fetchUsers] fails (the request rejects, the status is outside
    200-299, or the body cannot be parsed) the roster is left as it was and
    [error] becomes ["Failed to fetch users"]; [fetchUsers] never throws; on
    a success response the roster is replaced by the response body. *)
Theorem fetchUsers_outcome outcome w :
  (fetchUsers outcome w).1 = Fulfilled tt /\
  (fetch_failed outcome ->
     users (store (fetchUsers outcome w).2) = users (store w) /\
     error (store (fetchUsers outcome w).2) = Some "Failed to fetch users") /\
  (forall r us,
     outcome = Fulfilled r -> (200 <= status r <= 299)%N ->
     json r = Fulfilled us ->
     users (store (fetchUsers outcome w).2) = us).
Proof.
  split; [apply fetchUsers_fulfils|]. split.
  - intros H. rewrite (fetchUsers_failure _ _ H). split; reflexivity.
  - intros r us -> Hr Hjs. apply ok_true in Hr.
    rewrite (fetchUsers_success _ _ _ Hr Hjs). reflexivity.
Qed.

(** ** login *)

(** C1: if, once [fetchUsers] has refreshed it, the roster holds a user whose
    email equals the given one up to case and whose password is the given
    one, [login] returns [true], marks the session authenticated, clears
    [error], and stores the matched user (the first such user of the roster)
    without its password and with its other fields intact. *)
Theorem login_match credentials outcome w u :
  let roster := users (store (fetchUsers outcome w).2) in
  let result := login credentials outcome w in
  In u roster ->
  toLowerCase (email u) = toLowerCase (cred_email credentials) ->
  password u = Some (cred_password credentials) ->
  result.1 = Fulfilled true /\
  isAuthenticated (store result.2) = true /\
  error (store result.2) = None /\
  (exists pre v post session,
     roster = pre ++ v :: post /\
     (forall z, In z pre -> matches credentials z = false) /\
     toLowerCase (email v) = toLowerCase (cred_email credentials) /\
     password v = Some (cred_password credentials) /\
     user (store result.2) = Some session /\
     password session = None /\
     id session = id v /\ name session = name v /\
     email session = email v /\ role session = role v) /\
  ((forall z, In z roster -> matches credentials z = true -> z = u) ->
   user (store result.2) = Some (withoutPassword u)).
Proof.
  intros roster result Hin Hemail Hpw.
  assert (Hm : matches credentials u = true) by (apply matches_true; auto).
  destruct (find_first _ _ _ Hin Hm)
    as (v & pre & post & Hfind & Hv & Hsplit & Hpre).
  subst result. rewrite login_run. cbn zeta. fold roster. rewrite Hfind. cbn.
  apply matches_true in Hv as Hv'. destruct Hv' as [Hve Hvp].
  repeat split; auto.
  - exists pre, v, post, (withoutPassword v). repeat split; auto.
  - intros Huniq. rewrite (Huniq v); auto.
    rewrite Hsplit. apply in_elt.
Qed.

(** C2: [login] never throws; and if no user of the refreshed roster has
    both the given email (up to case) and the given password, it returns
    [false], sets [error] to ["Invalid email or password"] and leaves [user]
    and [isAuthenticated] as they were, so an anonymous session stays
    anonymous. *)
Theorem login_no_match credentials outcome w :
  let roster := users (store (fetchUsers outcome w).2) in
  let result := login credentials outcome w in
  (exists b, result.1 = Fulfilled b) /\
  ((forall u, In u roster ->
      ~ (toLowerCase (email u) = toLowerCase (cred_email credentials) /\
         password u = Some (cred_password credentials))) ->
   result.1 = Fulfilled false /\
   error (store result.2) = Some "Invalid email or password" /\
   user (store result.2) = user (store w) /\
   isAuthenticated (store result.2) = isAuthenticated (store w) /\
   (anonymous (store w) -> anonymous (store result.2))).
Proof.
  intros roster result. subst result. rewrite login_run. cbn zeta. fold roster.
  destruct (fetchUsers_session outcome w) as [Hu Ha].
  destruct (List.find (matches credentials) roster) as [v|] eqn:Hfind; cbn.
  - split; [eauto|]. intros Hnone. exfalso.
    apply find_some in Hfind as [Hin Hv].
    apply (Hnone v Hin). now apply matches_true.
  - split; [eauto|]. intros _. do 4 (split; auto).
    intros [Hanon Hnull]. split; cbn; congruence.
Qed.

(** ** getUsers *)

(** C3: [getUsers] returns the users of the stored roster, in order, each
    without its password and with its other fields as they are; it fulfils at
    once, performs no effect (so no request) and leaves the store, with the
    passwords of its roster, as it was. *)
Theorem getUsers_strips w :
  exists l,
    getUsers w = (Fulfilled l, w) /\
    length l = length (users (store w)) /\
    (forall i u, users (store w) !! i = Some u ->
       exists v, l !! i = Some v /\ password v = None /\
         id v = id u /\ name v = name u /\
         email v = email u /\ role v = role u).
Proof.
  exists (map withoutPassword (users (store w))). split; [reflexivity|].
  split; [apply length_map|].
  intros i u Hi. exists (withoutPassword u). split; [|now repeat split].
  change (map withoutPassword (users (store w)))
    with (withoutPassword <$> users (store w)).
  rewrite list_lookup_fmap, Hi. reflexivity.
Qed.

(** ** logout *)


(** C4, the code against the claim: [logout] calls [removeItem] on
    ["auth-storage"], resets the store to no user, not authenticated, no
    error and an empty roster, and navigates to ["/"]; but the [set] that
    resets the store comes after the removal and writes the persisted slice
    again, so when [logout] returns the key is in [localStorage], holding
    the slice of a logged-out session.  The other keys are as they were. *)
Theorem logout_leaves_storage_key w :
  let reset :=
    {| user := None; isAuthenticated := false; error := None; users := [] |} in
  let slice :=
    {| persisted_user := None; persisted_isAuthenticated := false |} in
  logout w =
    (Fulfilled tt,
     {| store := reset;
        trace := trace w ++ [RemoveItem "auth-storage"; Navigate "/"];
        localStorage :=
          <["auth-storage" := Slice slice]>
            (delete "auth-storage" (localStorage w)) |}) /\
  localStorage (logout w).2 !! "auth-storage" = Some (Slice slice) /\
  (forall key, key <> "auth-storage" ->
     localStorage (logout w).2 !! key = localStorage w !! key).
Proof.
  intros reset slice.
  assert (Hrun : logout w =
            (Fulfilled tt,
             {| store := reset;
                trace := trace w ++ [RemoveItem "auth-storage"; Navigate "/"];
                localStorage :=
                  <["auth-storage" := Slice slice]>
                    (delete "auth-storage" (localStorage w)) |})).
  { unfold logout. run_async. cbn. rewrite <- app_assoc. reflexivity. }
  split; [exact Hrun|]. rewrite Hrun. cbn [snd localStorage]. split.
  - apply lookup_insert_eq.
  - intros key Hkey.
    rewrite lookup_insert_ne by congruence.
    apply lookup_delete_ne. congruence.
Qed.

(** ** removeMember *)

Lemma filter_sublist {A} (f : A -> bool) (l : list A) :
  sublist (List.filter f l) l.
Proof.
  induction l as [|a l IH]; cbn; [constructor|].
  destruct (f a); now constructor.
Qed.

(** C5: when the DELETE of [removeMember] is answered with a status in
    200-299, the new roster is the old one without the entries whose id is
    the targeted one, the other entries being kept as they are and in their
    order, and [error] is cleared. *)
Theorem removeMember_success target r w :
  let result := removeMember target (Fulfilled r) w in
  (200 <= status r <= 299)%N ->
  result.1 = Fulfilled tt /\
  error (store result.2) = None /\
  users (store result.2) =
    List.filter (fun u => negb (String.eqb (id u) target)) (users (store w)) /\
  (forall u, In u (users (store result.2)) <->
             In u (users (store w)) /\ id u <> target) /\
  sublist (users (store result.2)) (users (store w)).
Proof.
  intros result Hr. apply ok_true in Hr. subst result.
  rewrite removeMember_run. cbn zeta. rewrite Hr. cbn.
  do 3 (split; [reflexivity|]). split; [|apply filter_sublist].
  intros u. rewrite filter_In, negb_true_iff, String.eqb_neq. reflexivity.
Qed.

(** C6, as amended: when the DELETE of [removeMember] fails, the roster is
    left as it was and the error is rethrown to the caller.  On a status
    outside 200-299 the error carries, and [error] is set to, the [error]
    property of the response body when that property is there and is not
    the empty string, and ["Failed to remove member"] otherwise.  On a
    network error the rethrown value is the one [fetch] rejected with, and
    [error] is set to its message (["Failed to remove member"] when it is
    not an [Error]).  No other call of the store rejects. *)
Theorem removeMember_failure target outcome w :
  let result := removeMember target outcome w in
  (request_failed outcome ->
     users (store result.2) = users (store w) /\
     user (store result.2) = user (store w) /\
     isAuthenticated (store result.2) = isAuthenticated (store w)) /\
  (forall e, outcome = Rejected e ->
     result.1 = Rejected e /\
     error (store result.2) =
       Some (match e with
             | ErrorObject m => m
             | OtherValue => "Failed to remove member"
             end)) /\
  (forall r, outcome = Fulfilled r -> non_2xx r ->
     exists msg,
       result.1 = Rejected (ErrorObject msg) /\
       error (store result.2) = Some msg /\
       (forall d m, json r = Fulfilled (Some d) -> Body.error d = Some m ->
                    m <> "" -> msg = m) /\
       (forall e, json r = Rejected e -> msg = "Failed to remove member") /\
       (json r = Fulfilled None -> msg = "Failed to remove member") /\
       (forall d, json r = Fulfilled (Some d) ->
                  Body.error d = None \/ Body.error d = Some "" ->
                  msg = "Failed to remove member")) /\
  (forall ev w', rejects ev w' ->
     exists target' outcome',
       ev = CallRemoveMember target' outcome' /\ request_failed outcome').
Proof.
  intros result. subst result. rewrite removeMember_run. cbn zeta.
  repeat apply conj.
  - intros [e|r Hr]; [|apply ok_false in Hr; rewrite Hr]; cbn; auto.
  - intros e ->. cbn. destruct e; auto.
  - intros r -> Hr. apply ok_false in Hr. rewrite Hr. cbn.
    eexists. split; [reflexivity|]. split; [reflexivity|].
    unfold json_or_null. repeat apply conj.
    + intros d m -> Hm Hne. cbn. rewrite Hm. destruct m; [now contradict Hne|reflexivity].
    + intros e ->. reflexivity.
    + intros ->. reflexivity.
    + intros d -> [Hd|Hd]; cbn; rewrite Hd; reflexivity.
  - intros ev w'.
    destruct ev as [us|o|c o| | | |m po re|t up pu re|t o|ty da];
      cbn [rejects]; intros [e He].
    + discriminate.
    + now rewrite fetchUsers_fulfils in He.
    + rewrite login_run in He. cbn zeta in He.
      destruct (List.find _ _); discriminate.
    + discriminate.
    + discriminate.
    + discriminate.
    + rewrite addMember_run in He. cbn zeta in He.
      destruct po as [r|e']; [destruct (ok r)|]; discriminate.
    + rewrite updateMember_run in He. cbn zeta in He.
      destruct (List.find _ _); [|discriminate].
      destruct pu as [r|e']; [destruct (ok r)|]; discriminate.
    + exists t, o. split; [reflexivity|].
      rewrite removeMember_run in He. cbn zeta in He.
      destruct o as [r|e']; [|constructor].
      destruct (ok r) eqn:Hok; [discriminate|].
      constructor. now apply ok_false.
    + unfold dataUpdate in He. destruct (String.eqb ty "members"); discriminate.
Qed.

(** ** Push updates *)

(** C8: a push update of type ["members"] replaces the roster by its payload,
    whatever the roster was, and changes no other field of the store; a push
    update of any other type changes nothing. *)
Theorem dataUpdate_members type data w :
  (type = "members" ->
   dataUpdate type data w =
     (Fulfilled tt,
      {| store := {| user := user (store w);
                     isAuthenticated := isAuthenticated (store w);
                     error := error (store w);
                     users := data |};
         trace := trace w;
         localStorage :=
           <["auth-storage" := Slice (partialize (store w))]>
             (localStorage w) |})) /\
  (type <> "members" -> dataUpdate type data w = (Fulfilled tt, w)).
Proof.
  unfold dataUpdate. split.
  - intros ->. reflexivity.
  - intros Hne. apply String.eqb_neq in Hne. rewrite Hne. reflexivity.
Qed.

(** ** addMember *)


(** C9, as amended: [addMember] sends a POST to the members collection whose
    body is the given member as it is: its role is the one the caller passed,
    so it is ["member"] when the argument has that role, as its declared type
    asks, and nothing in the function makes it so.  When the response has a
    status in 200-299 a GET of the members collection follows, as in
    [fetchUsers]: the roster becomes the body of that response, or stays
    with [error] set to ["Failed to fetch users"] when the refresh fails.
    When the POST fails, [error] is ["Failed to add member"], the roster
    stays and no other request is sent.  [addMember] never throws. *)
Theorem addMember_posts member posted refreshed w :
  let payload :=
    {| body_id := nm_id member; body_name := Some (nm_name member);
       body_email := Some (nm_email member);
       body_password := nm_password member;
       body_role := nm_role member |} in
  let request :=
    {| url := API_URL +:+ "/members"; method := "POST";
       headers := [("Content-Type", "application/json")];
       body := Some payload |} in
  let refresh :=
    {| url := API_URL +:+ "/members"; method := "GET";
       headers := []; body := None |} in
  let sent :=
    {| store := store w; trace := trace w ++ [Fetch request];
       localStorage := localStorage w |} in
  let result := addMember member posted refreshed w in
  (nm_role member = "member" -> body_role payload = "member") /\
  result.1 = Fulfilled tt /\
  (exists rest, trace result.2 = trace w ++ Fetch request :: rest) /\
  (forall r, posted = Fulfilled r -> (200 <= status r <= 299)%N ->
     result.2 = (fetchUsers refreshed sent).2 /\
     requests (trace result.2) = requests (trace w) ++ [request; refresh] /\
     (forall r' us,
        refreshed = Fulfilled r' -> (200 <= status r' <= 299)%N ->
        json r' = Fulfilled us ->
        users (store result.2) = us /\
        error (store result.2) = error (store w)) /\
     (fetch_failed refreshed ->
        users (store result.2) = users (store w) /\
        error (store result.2) = Some "Failed to fetch users")) /\
  (request_failed posted ->
     error (store result.2) = Some "Failed to add member" /\
     users (store result.2) = users (store w) /\
     requests (trace result.2) = requests (trace w) ++ [request] /\
     exists e,
       trace result.2 =
         trace w ++ [Fetch request; ConsoleError "Failed to add member:" e]).
Proof.
  intros payload request refresh sent result. subst result.
  rewrite addMember_run. cbn zeta.
  change (mkRequest (API_URL +:+ "/members") "POST" jsonHeaders
            (Some (member_object member))) with request.
  fold sent. repeat apply conj.
  - intros Hrole. exact Hrole.
  - destruct posted as [r|e]; [destruct (ok r)|]; reflexivity.
  - destruct posted as [r|e]; [destruct (ok r)|]; cbn.
    + destruct (fetchUsers_trace refreshed sent) as [rest ->]. cbn.
      rewrite <- app_assoc. eauto.
    + rewrite <- app_assoc. eauto.
    + rewrite <- app_assoc. eauto.
  - intros r -> Hr. apply ok_true in Hr. rewrite Hr. cbn [snd].
    repeat apply conj.
    + reflexivity.
    + rewrite fetchUsers_requests. cbn [trace sent].
      rewrite requests_app, <- app_assoc. reflexivity.
    + intros r' us -> Hr' Hjs. apply ok_true in Hr'.
      rewrite (fetchUsers_success _ _ _ Hr' Hjs). split; reflexivity.
    + intros Hf. rewrite (fetchUsers_failure _ _ Hf). split; reflexivity.
  - intros [e|r Hr]; [|apply ok_false in Hr; rewrite Hr]; cbn;
      rewrite !requests_app, <- !app_assoc; cbn; rewrite ?app_nil_r;
      repeat split; eauto.
Qed.

(** ** The session *)

(** C10: in every reachable state the session is anonymous or authenticated;
    it goes from anonymous to authenticated only by a call of [login] that
    returns [true], from authenticated to anonymous only by [logout], and
    every other event, a failed login included, leaves [user] and
    [isAuthenticated] as they are. *)
Theorem session_transitions w :
  reachable w ->
  (anonymous (store w) \/ authenticated (store w)) /\
  forall ev,
    (anonymous (store w) -> authenticated (store (run ev w)) ->
     login_succeeds ev w) /\
    (authenticated (store w) -> anonymous (store (run ev w)) ->
     ev = CallLogout) /\
    (~ login_succeeds ev w -> ev <> CallLogout ->
     user (store (run ev w)) = user (store w) /\
     isAuthenticated (store (run ev w)) = isAuthenticated (store w)).
Proof.
  intros Hw. split; [now apply reachable_session|].
  intros ev.
  destruct (run_session ev w) as [Hlogin|[->|[Hu Ha]]].
  - repeat split; try tauto.
    intros _ [Hanon _].
    apply login_succeeds_authenticated in Hlogin as [Hauth _]. congruence.
  - repeat split; try tauto; try congruence.
    intros _ [Hauth _]. cbn in Hauth. discriminate.
  - unfold anonymous, authenticated. rewrite Hu, Ha.
    repeat split; auto.
    + intros [Hf _] [Ht _]. congruence.
    + intros [Ht _] [Hf _]. congruence.
Qed.

(** ** Further facts about lookups, traces and requests *)

Lemma find_absent {A} (f : A -> bool) (l : list A) :
  (forall x, In x l -> f x = false) -> List.find f l = None.
Proof.
  induction l as [|a l IH]; intros H; [reflexivity|].
  cbn. rewrite (H a) by now left. apply IH. intros x Hx. apply H. now right.
Qed.


Lemma find_pointwise {A} (f g : A -> bool) (l : list A) :
  (forall x, f x = g x) -> List.find f l = List.find g l.
Proof.
  intros H. induction l as [|a l IH]; [reflexivity|].
  cbn. rewrite H, IH. reflexivity.
Qed.

Lemma filter_all {A} (f : A -> bool) (l : list A) :
  (forall x, In x l -> f x = true) -> List.filter f l = l.
Proof.
  induction l as [|a l IH]; intros H; [reflexivity|].
  cbn. rewrite (H a) by now left. f_equal. apply IH.
  intros x Hx. apply H. now right.
Qed.

Lemma filter_twice {A} (f : A -> bool) (l : list A) :
  List.filter f (List.filter f l) = List.filter f l.
Proof.
  apply filter_all. intros x Hx. now apply filter_In in Hx.
Qed.

Lemma id_differs (u : User) (target : string) :
  negb (String.eqb (id u) target) = true <-> id u <> target.
Proof. rewrite negb_true_iff. apply String.eqb_neq. Qed.

(** The trace of a failed [fetchUsers]: the request and the logged error. *)
Lemma fetchUsers_failure_run outcome w :
  fetch_failed outcome ->
  exists e,
    fetchUsers outcome w =
      (Fulfilled tt,
       {| store := merge (store w) (only_error (Some "Failed to fetch users"));
          trace := trace w ++
            [Fetch (mkRequest (API_URL +:+ "/members") "GET" [] None);
             ConsoleError "Failed to fetch users:" e];
          localStorage :=
            persist (merge (store w) (only_error (Some "Failed to fetch users")))
              (localStorage w) |}).
Proof.
  intros H. unfold fetchUsers. run_async.
  destruct H as [_ [e|r Hr]|r e Hr]; cbn.
  - exists e. now rewrite <- app_assoc.
  - apply ok_false in Hr. rewrite Hr. cbn. eexists. now rewrite <- app_assoc.
  - destruct (ok r); cbn; [rewrite Hr|]; cbn; eexists;
      now rewrite <- app_assoc.
Qed.



(** A successful login stores a user stripped of its password. *)
Lemma login_succeeds_stripped ev w :
  login_succeeds ev w ->
  exists u, user (store (run ev w)) = Some (withoutPassword u).
Proof.
  destruct ev; cbn [login_succeeds run]; try contradiction.
  rewrite login_run. cbn zeta.
  destruct (List.find _ _); cbn; [eauto|discriminate].
Qed.

(** ** updateMember *)

(** X1: for an id that no user of the roster has, [updateMember] sends no
    request at all: it logs the lookup failure, sets [error] to
    ["Failed to update member"], leaves the rest of the store, and fulfils. *)
Theorem updateMember_unknown target updates put refreshed w :
  (forall u, In u (users (store w)) -> id u <> target) ->
  updateMember target updates put refreshed w =
    (Fulfilled tt,
     {| store := {| user := user (store w);
                    isAuthenticated := isAuthenticated (store w);
                    error := Some "Failed to update member";
                    users := users (store w) |};
        trace := trace w ++
          [ConsoleError "Failed to update member:"
             (ErrorObject "User not found")];
        localStorage :=
          <["auth-storage" := Slice (partialize (store w))]>
            (localStorage w) |}).
Proof.
  intros Hnone. rewrite updateMember_run. cbn zeta.
  rewrite find_absent; [reflexivity|].
  intros u Hu. apply String.eqb_neq. now apply Hnone.
Qed.



(** ** Stale errors and refreshes *)

(** X3: a successful [fetchUsers] replaces the roster but does not touch
    [error]: the message of a failed refresh is still there after the next
    refresh has succeeded. *)
Theorem fetchUsers_stale_error r us w :
  (200 <= status r <= 299)%N ->
  json r = Fulfilled us ->
  error (store (fetchUsers (Fulfilled r) w).2) = error (store w) /\
  forall failed, fetch_failed failed ->
    let w' := (fetchUsers (Fulfilled r) (fetchUsers failed w).2).2 in
    users (store w') = us /\
    error (store w') = Some "Failed to fetch users".
Proof.
  intros Hr Hjs. apply ok_true in Hr. split.
  - rewrite (fetchUsers_success _ _ _ Hr Hjs). reflexivity.
  - intros failed Hf. cbn zeta.
    rewrite (fetchUsers_success _ _ _ Hr Hjs).
    rewrite (fetchUsers_failure _ _ Hf). split; reflexivity.
Qed.

(** X4: when the POST of [addMember] is accepted but the refresh that follows
    fails, the roster is the old one (the new member is not added locally)
    and [error] reports the refresh, not the addition. *)
Theorem addMember_refresh_failed member r refreshed w :
  let result := addMember member (Fulfilled r) refreshed w in
  (200 <= status r <= 299)%N ->
  fetch_failed refreshed ->
  result.1 = Fulfilled tt /\
  users (store result.2) = users (store w) /\
  error (store result.2) = Some "Failed to fetch users" /\
  length (requests (trace result.2)) = length (requests (trace w)) + 2.
Proof.
  intros result Hr Hf. subst result. apply ok_true in Hr.
  rewrite addMember_run. cbn zeta. rewrite Hr. cbn [fst snd].
  rewrite fetchUsers_requests, (fetchUsers_failure _ _ Hf). cbn.
  rewrite requests_app, !length_app. cbn. repeat split; lia.
Qed.

(** ** The persisted slice *)

Lemma run_keeps_stripped ev w :
  (forall u, user (store w) = Some u -> password u = None) ->
  forall u, user (store (run ev w)) = Some u -> password u = None.
Proof.
  intros Hw u Hu.
  destruct (run_session ev w) as [Hlogin|[->|[Huser _]]].
  - apply login_succeeds_stripped in Hlogin as [v Hv].
    rewrite Hv in Hu. injection Hu as <-. reflexivity.
  - discriminate Hu.
  - apply Hw. now rewrite <- Huser.
Qed.

(** X5: in every reachable state the user of the slice that [partialize]
    hands to the persist middleware carries no password, and the slice says
    authenticated exactly when it holds a user. *)
Theorem persisted_without_password w :
  reachable w ->
  (forall u, persisted_user (partialize (store w)) = Some u ->
             password u = None) /\
  (persisted_isAuthenticated (partialize (store w)) = true <->
   exists u, persisted_user (partialize (store w)) = Some u).
Proof.
  intros Hw. split.
  - induction Hw as [|ev w Hw IH]; [discriminate|].
    now apply run_keeps_stripped.
  - cbn. destruct (reachable_session w Hw) as [[Ha Hu]|[Ha Hu]].
    + rewrite Ha, Hu. split; [discriminate|]. intros [u Hx]. discriminate Hx.
    + rewrite Ha. tauto.
Qed.

(** ** More on login *)

(** X6: [login] depends on the email only through its lower-casing: two
    credentials with the same password whose emails differ in case only
    give the same result and the same store. *)
Theorem login_email_case c1 c2 outcome w :
  toLowerCase (cred_email c1) = toLowerCase (cred_email c2) ->
  cred_password c1 = cred_password c2 ->
  login c1 outcome w = login c2 outcome w.
Proof.
  intros He Hp. rewrite !login_run. cbn zeta.
  rewrite (find_pointwise (matches c1) (matches c2)); [reflexivity|].
  intros u. unfold matches. now rewrite He, Hp.
Qed.

(** X7: a user without a password matches no credentials: if no user of the
    refreshed roster has one, [login] returns [false]; so the list that
    [getUsers] returns, put back with [setUsers], lets nobody in while the
    refresh fails. *)
Theorem login_without_passwords credentials outcome w :
  ((forall u, In u (users (store (fetchUsers outcome w).2)) ->
              password u = None) ->
   (login credentials outcome w).1 = Fulfilled false) /\
  (fetch_failed outcome ->
   forall l w1, getUsers w = (Fulfilled l, w1) ->
     (login credentials outcome (setUsers l w1).2).1 = Fulfilled false).
Proof.
  assert (Hgen : forall w0,
            (forall u, In u (users (store (fetchUsers outcome w0).2)) ->
                       password u = None) ->
            (login credentials outcome w0).1 = Fulfilled false).
  { intros w0 Hnone. rewrite login_run. cbn zeta.
    rewrite find_absent; [reflexivity|].
    intros u Hu. unfold matches. rewrite (Hnone u Hu).
    apply andb_false_r. }
  split; [apply Hgen|].
  intros Hf l w1 Hget. apply Hgen.
  rewrite (fetchUsers_failure _ _ Hf). cbn.
  injection Hget as <- <-.
  intros u Hu. apply in_map_iff in Hu as (v & <- & _). reflexivity.
Qed.

(** X8: when the refresh inside [login] fails, [login] decides on the roster
    that is already in the store, which it leaves as it is, and [error]
    never reports the failed refresh: it is [null] when [login] returns
    [true] and ["Invalid email or password"] when it returns [false]. *)
Theorem login_refresh_failed credentials outcome w :
  let result := login credentials outcome w in
  fetch_failed outcome ->
  users (store result.2) = users (store w) /\
  (result.1 = Fulfilled true <->
   exists u, In u (users (store w)) /\
     toLowerCase (email u) = toLowerCase (cred_email credentials) /\
     password u = Some (cred_password credentials)) /\
  (result.1 = Fulfilled true /\ error (store result.2) = None \/
   result.1 = Fulfilled false /\
   error (store result.2) = Some "Invalid email or password") /\
  requests (trace result.2) =
    requests (trace w) ++ [mkRequest (API_URL +:+ "/members") "GET" [] None].
Proof.
  intros result Hf. subst result. rewrite login_run. cbn zeta.
  pose proof (fetchUsers_requests outcome w) as Hreq.
  pose proof (fetchUsers_failure outcome w Hf) as Hst.
  destruct (fetchUsers outcome w) as [res w1]. cbn [snd] in *.
  rewrite Hst. cbn [users merge only_error default p_users].
  destruct (List.find (matches credentials) (users (store w))) as [v|] eqn:Hfind;
    cbn [fst snd store users error trace].
  - repeat apply conj; auto.
    intros _. apply find_some in Hfind as [Hin Hv].
    apply matches_true in Hv. eauto.
  - repeat apply conj; auto; [discriminate|].
    intros (u & Hin & He & Hp).
    pose proof (find_none _ _ Hfind u Hin) as Hno.
    assert (matches credentials u = true) by (apply matches_true; auto).
    congruence.
Qed.

(** X9: after [logout] the roster is empty, so a [login] whose refresh fails
    returns [false], whatever the credentials. *)
Theorem login_after_logout credentials outcome w :
  fetch_failed outcome ->
  (login credentials outcome (logout w).2).1 = Fulfilled false /\
  (getUsers (logout w).2).1 = Fulfilled [].
Proof.
  intros Hf. split; [|reflexivity].
  rewrite login_run. cbn zeta. rewrite (fetchUsers_failure _ _ Hf).
  reflexivity.
Qed.

(** ** More on removeMember *)

(** X10: when the DELETE is accepted for an id that no user of the roster
    has, the roster stays exactly as it is and [error] is cleared. *)
Theorem removeMember_absent target r w :
  let result := removeMember target (Fulfilled r) w in
  (200 <= status r <= 299)%N ->
  (forall u, In u (users (store w)) -> id u <> target) ->
  result.1 = Fulfilled tt /\
  users (store result.2) = users (store w) /\
  error (store result.2) = None.
Proof.
  intros result Hr Hnone. subst result. apply ok_true in Hr.
  rewrite removeMember_run. cbn zeta. rewrite Hr. cbn.
  rewrite filter_all; [auto|].
  intros u Hu. apply id_differs. now apply Hnone.
Qed.

(** X11: an accepted removal leaves no user with the targeted id, duplicates
    included, and never lengthens the roster; removing the same id again
    changes nothing more. *)
Theorem removeMember_twice target r1 r2 w :
  let once := (removeMember target (Fulfilled r1) w).2 in
  let twice := (removeMember target (Fulfilled r2) once).2 in
  (200 <= status r1 <= 299)%N ->
  (200 <= status r2 <= 299)%N ->
  Forall (fun u => id u <> target) (users (store once)) /\
  length (users (store once)) <= length (users (store w)) /\
  users (store twice) = users (store once).
Proof.
  intros once twice H1 H2. subst twice once.
  apply ok_true in H1. apply ok_true in H2.
  rewrite !removeMember_run. cbn zeta. rewrite H1. cbn [snd store users].
  rewrite H2. cbn [snd store users].
  repeat apply conj.
  - apply List.Forall_forall. intros u Hu.
    apply filter_In in Hu as [_ Hu]. now apply id_differs.
  - apply filter_length_le.
  - apply filter_twice.
Qed.

(** X12: [removeMember] does not look the id up in the roster: whatever the
    roster and whatever the answer, it sends exactly one request, a DELETE
    without body to the member's URL, and it leaves the session fields. *)
Theorem removeMember_request target outcome w :
  let result := removeMember target outcome w in
  requests (trace result.2) =
    requests (trace w) ++
      [{| url := API_URL +:+ "/members/" +:+ target; method := "DELETE";
          headers := [("Content-Type", "application/json")];
          body := None |}] /\
  partialize (store result.2) = partialize (store w).
Proof.
  intros result. subst result. rewrite removeMember_run. cbn zeta.
  destruct outcome as [r|e]; [destruct (ok r)|]; cbn;
    rewrite ?requests_app; cbn; rewrite ?app_nil_r; auto.
Qed.

(** ** Requests *)

Lemma API_URL_cases :
  (exists base, VITE_API_URL = Some base /\ base <> "" /\ API_URL = base) \/
  ((VITE_API_URL = None \/ VITE_API_URL = Some "") /\
   API_URL = "http://localhost:3000/api").
Proof.
  unfold API_URL. destruct VITE_API_URL as [[|c base]|]; cbn.
  - right. auto.
  - left. exists (String c base). repeat split. discriminate.
  - right. auto.
Qed.

(** X13: whatever the event, the trace only grows, at most two requests go
    out and none for an event that does not await, and every request goes to
    the members collection of the API or to one of its members; the base URL
    is the environment's when that is set and not empty, and
    ["http://localhost:3000/api"] otherwise. *)
Ltac urls :=
  cbn; repeat first
    [ apply List.Forall_nil
    | apply List.Forall_cons;
      [cbn [url]; first [left; reflexivity | right; eauto]|] ].

Theorem requests_to_members ev w :
  (exists sent,
     requests (trace (run ev w)) = requests (trace w) ++ sent /\
     length sent <= 2 /\
     (synchronous ev = true -> sent = []) /\
     Forall (fun request => members_url (url request)) sent) /\
  ((exists base, VITE_API_URL = Some base /\ base <> "" /\ API_URL = base) \/
   ((VITE_API_URL = None \/ VITE_API_URL = Some "") /\
    API_URL = "http://localhost:3000/api")).
Proof.
  split; [|apply API_URL_cases].
  assert (Hcoll : members_url (API_URL +:+ "/members")) by now left.
  assert (Hone : forall i, members_url (API_URL +:+ "/members/" +:+ i))
    by (intros i; right; eauto).
  destruct ev as [us|o|c o| | | |m po re|t up pu re|t o|ty da];
    cbn [run synchronous].
  - exists []. rewrite app_nil_r. repeat split; auto.
  - exists [mkRequest (API_URL +:+ "/members") "GET" [] None].
    split; [apply fetchUsers_requests|].
    repeat split; auto. discriminate.
  - rewrite login_run. cbn zeta.
    exists [mkRequest (API_URL +:+ "/members") "GET" [] None].
    split; [|repeat split; auto; discriminate].
    rewrite <- (fetchUsers_requests o w).
    destruct (List.find _ _); reflexivity.
  - exists []. rewrite app_nil_r. split; [|repeat split; auto].
    unfold logout. run_async. cbn. rewrite !requests_app. cbn.
    now rewrite !app_nil_r.
  - exists []. rewrite app_nil_r. repeat split; auto.
  - exists []. rewrite app_nil_r. repeat split; auto.
  - rewrite addMember_run. cbn zeta.
    destruct po as [r|e]; [destruct (ok r)|]; cbn [snd trace].
    + eexists. rewrite fetchUsers_requests. cbn [trace].
      rewrite requests_app, <- app_assoc. split; [reflexivity|].
      cbn [length]. repeat split; auto; try discriminate; urls.
    + eexists. rewrite !requests_app, <- app_assoc. split; [reflexivity|].
      cbn [length]. repeat split; auto; try discriminate; urls.
    + eexists. rewrite !requests_app, <- app_assoc. split; [reflexivity|].
      cbn [length]. repeat split; auto; try discriminate; urls.
  - rewrite updateMember_run. cbn zeta.
    destruct (List.find _ _) as [u|].
    + destruct pu as [r|e]; [destruct (ok r)|]; cbn [snd trace].
      * eexists. rewrite fetchUsers_requests. cbn [trace].
        rewrite requests_app, <- app_assoc. split; [reflexivity|].
        cbn [length]. repeat split; auto; try discriminate; urls.
      * eexists. rewrite !requests_app, <- app_assoc. split; [reflexivity|].
        cbn [length]. repeat split; auto; try discriminate; urls.
      * eexists. rewrite !requests_app, <- app_assoc. split; [reflexivity|].
        cbn [length]. repeat split; auto; try discriminate; urls.
    + exists []. cbn. rewrite requests_app. cbn.
      repeat split; auto; discriminate.
  - rewrite removeMember_run. cbn zeta.
    destruct o as [r|e]; [destruct (ok r)|]; cbn [snd trace];
      eexists; rewrite !requests_app, <- ?app_assoc; (split; [reflexivity|]);
      cbn [length]; repeat split; auto; try discriminate;
      urls.
  - exists []. rewrite app_nil_r. split; [|repeat split; auto].
    unfold dataUpdate. destruct (String.eqb ty "members"); reflexivity.
Qed.

End Store.

(** ** The theorems at concrete inputs *)

Import Scenario.

(** The scenario of the specification: the roster is Ann's record and the
    login is with her email in capitals. *)
Lemma login_match_scenario :
  let result :=
    login None asciiToLowerCase (mkCredentials "A@X.com" "p1")
      (answer 200 [ann]) fresh in
  result.1 = Fulfilled true /\
  user (store result.2) =
    Some {| id := "1"; name := "Ann"; email := "a@x.com";
            password := None; role := "member" |} /\
  isAuthenticated (store result.2) = true /\
  error (store result.2) = None.
Proof.
  cbv zeta.
  destruct (login_match None asciiToLowerCase (mkCredentials "A@X.com" "p1")
              (answer 200 [ann]) fresh ann (or_introl eq_refl) eq_refl eq_refl)
    as (Hres & Hauth & Herr & _ & Huser).
  split; [exact Hres|]. split; [|split; assumption].
  apply Huser. intros z [<-|[]] _. reflexivity.
Defined.

(** The same roster and a wrong password. *)
Lemma login_no_match_scenario :
  let result :=
    login None asciiToLowerCase (mkCredentials "a@x.com" "nope")
      (answer 200 [ann]) fresh in
  result.1 = Fulfilled false /\
  error (store result.2) = Some "Invalid email or password" /\
  user (store result.2) = None /\
  isAuthenticated (store result.2) = false.
Proof.
  cbv zeta.
  destruct (login_no_match None asciiToLowerCase
              (mkCredentials "a@x.com" "nope") (answer 200 [ann]) fresh)
    as [_ H].
  destruct H as (Hres & Herr & Huser & Hauth & _).
  { intros u [<-|[]] [_ Hpw]. discriminate Hpw. }
  split; [exact Hres|]. split; [exact Herr|].
  split; [exact Huser|exact Hauth].
Defined.

(** A server error leaves the roster; a success response replaces it. *)
Lemma fetchUsers_outcome_scenario :
  (let w' := (fetchUsers None (answer 500 []) (with_roster [ann; bob])).2 in
   users (store w') = [ann; bob] /\
   error (store w') = Some "Failed to fetch users") /\
  users (store (fetchUsers None (answer 200 [cy]) (with_roster [ann; bob])).2)
    = [cy].
Proof.
  cbv zeta. split.
  - destruct (fetchUsers_outcome None (answer 500 []) (with_roster [ann; bob]))
      as (_ & H & _).
    apply H. do 2 constructor. right. reflexivity.
  - destruct (fetchUsers_outcome None (answer 200 [cy]) (with_roster [ann; bob]))
      as (_ & _ & H).
    eapply H; [reflexivity| |reflexivity]. cbn. lia.
Defined.

(** Removing Bob from a roster of three. *)
Lemma removeMember_success_scenario :
  let result :=
    removeMember None "2" (answer 204 None) (with_roster [ann; bob; cy]) in
  result.1 = Fulfilled tt /\
  error (store result.2) = None /\
  users (store result.2) = [ann; cy].
Proof.
  cbv zeta.
  assert (H2xx : (200 <= 204 <= 299)%N) by lia.
  destruct (removeMember_success None "2"
              {| status := 204; json := Fulfilled None |}
              (with_roster [ann; bob; cy]) H2xx)
    as (Hres & Herr & Hus & _).
  split; [exact Hres|]. split; [exact Herr|exact Hus].
Defined.

(** A 404 whose body names the error. *)
Lemma removeMember_failure_scenario :
  let result :=
    removeMember None "9"
      (answer 404 (Some (Body.make (Some "Member not found"))))
      (with_roster [ann; bob]) in
  result.1 = Rejected (ErrorObject "Member not found") /\
  error (store result.2) = Some "Member not found" /\
  users (store result.2) = [ann; bob].
Proof.
  cbv zeta.
  destruct (removeMember_failure None asciiToLowerCase "9"
              (answer 404 (Some (Body.make (Some "Member not found"))))
              (with_roster [ann; bob]))
    as (Hsame & _ & Hstatus & _).
  assert (Hno : non_2xx {| status := 404;
                           json := Fulfilled
                                     (Some (Body.make (Some "Member not found"))) |})
    by (right; reflexivity).
  destruct (Hstatus _ eq_refl Hno) as (msg & Hres & Herr & Hmsg & _).
  rewrite (Hmsg _ "Member not found" eq_refl eq_refl) in Hres, Herr
    by discriminate.
  destruct (Hsame (refused_request _ Hno)) as (Hus & _).
  split; [exact Hres|]. split; [exact Herr|exact Hus].
Defined.

(** C6, as stated, fails: when [fetch] rejects there is no response body, yet
    [error] is not the default message but the message of the network error;
    and a body whose [error] property is the empty string yields the default
    message, not that property. *)
Lemma removeMember_failure_counterexample :
  (let outcome := Rejected (ErrorObject "Failed to fetch") in
   let result := removeMember None "1" outcome (with_roster [ann]) in
   request_failed outcome /\
   error (store result.2) = Some "Failed to fetch" /\
   error (store result.2) <> Some "Failed to remove member") /\
  (let outcome := answer 500 (Some (Body.make (Some ""))) in
   let result := removeMember None "1" outcome (with_roster [ann]) in
   request_failed outcome /\
   error (store result.2) = Some "Failed to remove member" /\
   error (store result.2) <> Some "").
Proof.
  cbv zeta. split.
  - split; [constructor|]. split; [reflexivity|discriminate].
  - split; [constructor; right; reflexivity|].
    split; [reflexivity|discriminate].
Qed.

(** A push update of the members, and one of something else. *)
Lemma dataUpdate_members_scenario :
  users (store (dataUpdate "members" [cy] (with_roster [ann; bob])).2) = [cy] /\
  dataUpdate "gigs" [cy] (with_roster [ann; bob])
    = (Fulfilled tt, with_roster [ann; bob]).
Proof.
  destruct (dataUpdate_members "members" [cy] (with_roster [ann; bob]))
    as [Hm _].
  destruct (dataUpdate_members "gigs" [cy] (with_roster [ann; bob]))
    as [_ Ho].
  split.
  - rewrite Hm; reflexivity.
  - apply Ho. discriminate.
Defined.

(** The server takes Dee in and the refresh brings her record; and the
    server refuses her. *)
Lemma addMember_posts_scenario :
  let dee_record :=
    {| id := "4"; name := "Dee"; email := "d@x.com";
       password := Some "p4"; role := "member" |} in
  (let result :=
     addMember None dee (answer 201 tt) (answer 200 [ann; dee_record])
       (with_roster [ann]) in
   result.1 = Fulfilled tt /\
   users (store result.2) = [ann; dee_record] /\
   requests (trace result.2) =
     [{| url := "http://localhost:3000/api/members"; method := "POST";
         headers := [("Content-Type", "application/json")];
         body := Some {| body_id := "4"; body_name := Some "Dee";
                         body_email := Some "d@x.com";
                         body_password := Some "p4";
                         body_role := "member" |} |};
      {| url := "http://localhost:3000/api/members"; method := "GET";
         headers := []; body := None |}]) /\
  (let result :=
     addMember None dee (answer 409 tt) (answer 200 []) (with_roster [ann]) in
   result.1 = Fulfilled tt /\
   error (store result.2) = Some "Failed to add member" /\
   users (store result.2) = [ann]).
Proof.
  cbv zeta. split.
  - destruct (addMember_posts None dee (answer 201 tt)
                (answer 200 [ann; mkUser "4" "Dee" "d@x.com" (Some "p4") "member"])
                (with_roster [ann]))
      as (_ & Hres & _ & Hok & _).
    assert (H201 : (200 <= 201 <= 299)%N) by lia.
    assert (H200 : (200 <= 200 <= 299)%N) by lia.
    destruct (Hok _ eq_refl H201) as (_ & Hreq & Hfresh & _).
    destruct (Hfresh _ _ eq_refl H200 eq_refl) as [Hus _].
    split; [exact Hres|]. split; [exact Hus|exact Hreq].
  - destruct (addMember_posts None dee (answer 409 tt) (answer 200 [])
                (with_roster [ann]))
      as (_ & Hres & _ & _ & Hfail).
    destruct Hfail as (Herr & Hus & _).
    { constructor. right. reflexivity. }
    split; [exact Hres|]. split; [exact Herr|exact Hus].
Defined.

(** C9, as stated, fails: nothing forces the role.  A member passed with the
    role ["admin"] is posted with that role. *)
Lemma addMember_role_counterexample :
  let eve :=
    {| nm_id := "5"; nm_name := "Eve"; nm_email := "e@x.com";
       nm_password := Some "p5"; nm_role := "admin" |} in
  let result :=
    addMember None eve (answer 201 tt) (answer 200 []) (with_roster [ann]) in
  match requests (trace result.2) with
  | posted :: _ =>
      method posted = "POST" /\
      (body_role <$> body posted) = Some "admin" /\
      (body_role <$> body posted) <> Some "member"
  | [] => False
  end.
Proof.
  cbv zeta. cbn. split; [reflexivity|]. split; [reflexivity|discriminate].
Qed.

(** After Ann's login the session is authenticated, and only [logout] takes
    it back. *)
Lemma session_transitions_scenario :
  let login_ann :=
    CallLogin (mkCredentials "a@x.com" "p1") (answer 200 [ann]) in
  let w := run None asciiToLowerCase login_ann fresh in
  authenticated (store w) /\
  user (store (run None asciiToLowerCase (CallFetchUsers (answer 500 [])) w))
    = user (store w).
Proof.
  cbv zeta.
  destruct (session_transitions None asciiToLowerCase
              (run None asciiToLowerCase
                 (CallLogin (mkCredentials "a@x.com" "p1") (answer 200 [ann]))
                 fresh)
              (reachable_run _ _ _ _ (reachable_initial _ _)))
    as [Hstate Hstep].
  split.
  - destruct Hstate as [[Hanon _]|Hauth]; [discriminate Hanon|exact Hauth].
  - destruct (Hstep (CallFetchUsers (answer 500 []))) as (_ & _ & Hkeep).
    apply Hkeep; [intros []|discriminate].
Defined.

(** Renaming a member nobody has: no request goes out. *)
Lemma updateMember_unknown_scenario :
  let result :=
    updateMember None "9" (mkUpdates (Given "Zed") Absent Absent)
      (answer 200 tt) (answer 200 []) (with_roster [ann; bob]) in
  result.1 = Fulfilled tt /\
  error (store result.2) = Some "Failed to update member" /\
  users (store result.2) = [ann; bob] /\
  requests (trace result.2) = [].
Proof.
  cbv zeta.
  assert (Hnone : forall u, In u (users (store (with_roster [ann; bob]))) ->
                            id u <> "9").
  { intros u [<-|[<-|[]]]; discriminate. }
  rewrite (updateMember_unknown None "9" (mkUpdates (Given "Zed") Absent Absent)
             (answer 200 tt) (answer 200 []) (with_roster [ann; bob]) Hnone).
  repeat split.
Defined.


(** A refresh that fails, then one that succeeds. *)
Lemma fetchUsers_stale_error_scenario :
  let w' :=
    (fetchUsers None (answer 200 [cy])
       (fetchUsers None (answer 503 []) (with_roster [ann])).2).2 in
  users (store w') = [cy] /\
  error (store w') = Some "Failed to fetch users".
Proof.
  cbv zeta.
  assert (H2xx : (200 <= 200 <= 299)%N) by lia.
  destruct (fetchUsers_stale_error None
              {| status := 200; json := Fulfilled [cy] |} [cy]
              (with_roster [ann]) H2xx eq_refl)
    as [_ Hthen].
  apply (Hthen (answer 503 [])).
  do 2 constructor. right. reflexivity.
Defined.

(** The server takes Dee in, then the refresh fails. *)
Lemma addMember_refresh_failed_scenario :
  let result :=
    addMember None dee (answer 201 tt) (answer 500 []) (with_roster [ann]) in
  users (store result.2) = [ann] /\
  error (store result.2) = Some "Failed to fetch users".
Proof.
  cbv zeta.
  assert (H2xx : (200 <= 201 <= 299)%N) by lia.
  assert (Hfail : fetch_failed (answer 500 [])).
  { do 2 constructor. right. reflexivity. }
  destruct (addMember_refresh_failed None dee
              {| status := 201; json := Fulfilled tt |} (answer 500 [])
              (with_roster [ann]) H2xx Hfail)
    as (_ & Hus & Herr & _).
  split; [exact Hus|exact Herr].
Defined.

(** The slice persisted after Ann's login. *)
Lemma persisted_without_password_scenario :
  let w :=
    run None asciiToLowerCase
      (CallLogin (mkCredentials "a@x.com" "p1") (answer 200 [ann])) fresh in
  persisted_isAuthenticated (partialize (store w)) = true /\
  match persisted_user (partialize (store w)) with
  | Some u => email u = "a@x.com" /\ password u = None
  | None => False
  end.
Proof.
  cbv zeta.
  destruct (persisted_without_password None asciiToLowerCase
              (run None asciiToLowerCase
                 (CallLogin (mkCredentials "a@x.com" "p1") (answer 200 [ann]))
                 fresh)
              (reachable_run _ _ _ _ (reachable_initial _ _)))
    as [Hpw Hauth].
  split.
  - apply Hauth. eexists. reflexivity.
  - pose proof (Hpw (withoutPassword ann) eq_refl) as Hnone.
    split; [reflexivity|exact Hnone].
Defined.

(** Two spellings of Ann's email. *)
Lemma login_email_case_scenario :
  login None asciiToLowerCase (mkCredentials "A@X.COM" "p1")
    (answer 200 [ann]) fresh
  = login None asciiToLowerCase (mkCredentials "a@x.Com" "p1")
      (answer 200 [ann]) fresh.
Proof.
  apply (login_email_case None asciiToLowerCase
           (mkCredentials "A@X.COM" "p1") (mkCredentials "a@x.Com" "p1"));
    reflexivity.
Defined.

(** The stripped roster put back into the store, and the server down. *)
Lemma login_without_passwords_scenario :
  let outcome : Settled (Response (list User)) :=
    Rejected (ErrorObject "Failed to fetch") in
  let stripped := (setUsers [withoutPassword ann] (with_roster [ann])).2 in
  (login None asciiToLowerCase (mkCredentials "a@x.com" "p1") outcome
     stripped).1 = Fulfilled false.
Proof.
  cbv zeta.
  destruct (login_without_passwords None asciiToLowerCase
              (mkCredentials "a@x.com" "p1")
              (Rejected (ErrorObject "Failed to fetch"))
              (with_roster [ann]))
    as [_ Hstripped].
  apply Hstripped; [do 2 constructor|reflexivity].
Defined.

(** Ann logs in while the server is down. *)
Lemma login_refresh_failed_scenario :
  let result :=
    login None asciiToLowerCase (mkCredentials "a@x.com" "p1")
      (Rejected (ErrorObject "Failed to fetch")) (with_roster [ann; bob]) in
  result.1 = Fulfilled true /\
  users (store result.2) = [ann; bob] /\
  error (store result.2) = None.
Proof.
  cbv zeta.
  assert (Hfail : fetch_failed (Rejected (ErrorObject "Failed to fetch")))
    by do 2 constructor.
  destruct (login_refresh_failed None asciiToLowerCase
              (mkCredentials "a@x.com" "p1")
              (Rejected (ErrorObject "Failed to fetch"))
              (with_roster [ann; bob]) Hfail)
    as (Hus & Hiff & Herr & _).
  assert (Htrue : (login None asciiToLowerCase (mkCredentials "a@x.com" "p1")
                     (Rejected (ErrorObject "Failed to fetch"))
                     (with_roster [ann; bob])).1 = Fulfilled true).
  { apply Hiff. exists ann. split; [left; reflexivity|]. split; reflexivity. }
  split; [exact Htrue|]. split; [exact Hus|].
  destruct Herr as [[_ Hnull]|[Hfalse _]]; [exact Hnull|].
  rewrite Htrue in Hfalse. discriminate Hfalse.
Defined.

(** Logging out, then in again while the server is down. *)
Lemma login_after_logout_scenario :
  (login None asciiToLowerCase (mkCredentials "a@x.com" "p1")
     (Rejected OtherValue) (logout (with_roster [ann])).2).1
  = Fulfilled false.
Proof.
  assert (Hfail : fetch_failed (Rejected OtherValue)) by do 2 constructor.
  exact (proj1 (login_after_logout None asciiToLowerCase
                  (mkCredentials "a@x.com" "p1") (Rejected OtherValue)
                  (with_roster [ann]) Hfail)).
Defined.

(** Removing a member that is not in the roster. *)
Lemma removeMember_absent_scenario :
  let result :=
    removeMember None "9" (answer 200 None)
      {| store := {| user := None; isAuthenticated := false;
                     error := Some "Failed to fetch users";
                     users := [ann; bob] |};
         trace := []; localStorage := ∅ |} in
  users (store result.2) = [ann; bob] /\ error (store result.2) = None.
Proof.
  cbv zeta.
  assert (H2xx : (200 <= 200 <= 299)%N) by lia.
  destruct (removeMember_absent None "9"
              {| status := 200; json := Fulfilled None |}
              {| store := {| user := None; isAuthenticated := false;
                             error := Some "Failed to fetch users";
                             users := [ann; bob] |};
                 trace := []; localStorage := ∅ |} H2xx)
    as (_ & Hus & Herr).
  { intros u [<-|[<-|[]]]; discriminate. }
  split; [exact Hus|exact Herr].
Defined.

(** Removing Bob, listed twice, and then once more. *)
Lemma removeMember_twice_scenario :
  let once :=
    (removeMember None "2" (answer 200 None) (with_roster [bob; ann; bob])).2 in
  users (store (removeMember None "2" (answer 204 None) once).2)
    = users (store once).
Proof.
  cbv zeta.
  assert (H200 : (200 <= 200 <= 299)%N) by lia.
  assert (H204 : (200 <= 204 <= 299)%N) by lia.
  exact (proj2 (proj2 (removeMember_twice None "2"
                         {| status := 200; json := Fulfilled None |}
                         {| status := 204; json := Fulfilled None |}
                         (with_roster [bob; ann; bob]) H200 H204))).
Defined.
